(** * WebinarJam auto-registration endpoint

    A shallow embedding of [webinarjam_auto_register.py]: the [Contact]
    model, the [register_contact] handler of [POST /register] and the
    mapping of the remote answer onto the handler's result.

    Conventions.
    - A Python [str] is a [string]; every [ascii] stands for one code point
      below 256.
    - A value produced by [response.json()] is a [json]; [JNull] is Python's
      [None].
    - The handler runs in the monad [M]: it appends the effects it performs
      ([requests.post], [time.sleep], [print]) to a log and ends either with
      a value or with a raised exception.
    - What the libraries and the network decide (the answer of the remote
      API, [json.loads], the rendering of a non-string value in an f-string,
      pydantic's e-mail check) is a field of [World].
    - An [async def] is a [coroutine], the blocks between its [await]s;
      [event_loop] runs the tasks in flight on one thread and switches
      between them at an [await] only. *)

From Stdlib Require Import String Ascii List ZArith NArith Bool Lia.
Import ListNotations.

Local Open Scope string_scope.
Local Open Scope list_scope.

(** ** Python strings: [str.split()] and [str.join] *)

(** [str.isspace] on one code point below 256: TAB..CR, FS..US and SPACE,
    NEL (0x85) and NBSP (0xA0). *)
Definition is_space (c : ascii) : bool :=
  let n := N_of_ascii c in
  (((9 <=? n) && (n <=? 13)) || ((28 <=? n) && (n <=? 32))
   || (n =? 133) || (n =? 160))%N.

(** The token being read, closed at a separator or at the end of input. *)
Definition flush (cur : string) : list string :=
  match cur with
  | EmptyString => []
  | _ => [cur]
  end.

(** [s.split()] scanning left to right; [cur] is the token read so far. *)
Fixpoint split_from (cur s : string) : list string :=
  match s with
  | EmptyString => flush cur
  | String c rest =>
      if is_space c
      then flush cur ++ split_from EmptyString rest
      else split_from (cur ++ String c EmptyString)%string rest
  end.

(** [s.split()] with no argument: runs of whitespace separate the tokens,
    leading and trailing whitespace is dropped. *)
Definition split (s : string) : list string := split_from EmptyString s.

(** [sep.join(parts)]. *)
Fixpoint join (sep : string) (parts : list string) : string :=
  match parts with
  | [] => EmptyString
  | [p] => p
  | p :: ps => (p ++ sep ++ join sep ps)%string
  end.

(** A token: non-empty, and free of whitespace. *)
Fixpoint no_space (s : string) : bool :=
  match s with
  | EmptyString => true
  | String c rest => negb (is_space c) && no_space rest
  end.

Fixpoint all_space (s : string) : bool :=
  match s with
  | EmptyString => true
  | String c rest => is_space c && all_space rest
  end.

Definition is_token (s : string) : bool :=
  match s with
  | EmptyString => false
  | _ => no_space s
  end.

(** [needle] occurs inside [hay]. *)
Definition embeds (needle hay : string) : Prop :=
  exists before after, hay = (before ++ needle ++ after)%string.

(** ** Values of [response.json()] *)

#[local] Set Warnings "-register-all".

Inductive json : Type :=
| JNull
| JBool (b : bool)
| JNum (literal : string)
| JStr (s : string)
| JList (items : list json)
| JDict (entries : list (string * json)).

(** Lookup of a key in a [dict]. *)
Fixpoint dict_get (k : string) (d : list (string * json)) : option json :=
  match d with
  | [] => None
  | (k', v) :: rest => if String.eqb k k' then Some v else dict_get k rest
  end.

(** [v == s] for a string literal [s]. *)
Definition py_eq_str (v : json) (s : string) : bool :=
  match v with
  | JStr t => String.eqb t s
  | _ => false
  end.

(** ** Data of the endpoint *)

(** [class Contact(BaseModel)]. *)
Record Contact : Type := mkContact {
  name : string;
  email : string;
  phone : string
}.

(** The JSON body of an inbound request, before validation: each of the
    three fields is absent or holds a text. *)
Record RawRequest : Type := mkRaw {
  raw_name : option string;
  raw_email : option string;
  raw_phone : option string
}.

(** What the handler reads of a [requests.Response]. *)
Record Response : Type := mkResponse {
  status_code : Z;
  text : string
}.

(** The [dict] returned on success. *)
Record Registered : Type := mkRegistered {
  message : string;
  user_id : json;
  live_room_url : json;
  replay_room_url : json;
  thank_you_url : json
}.

Definition form : Type := list (string * string).

(** The module-level settings read from the environment. *)
Record Config : Type := mkConfig {
  WEBINARJAM_API_KEY : string;
  WEBINAR_ID : string;
  WEBINAR_SCHEDULE_ID : string
}.

(** What lies outside the file. [requests_post url data headers] is the
    answer to the call, [inl msg] when it raises a [RequestException]
    whose [str] is [msg]; [json_loads] is [None] where [response.json()]
    raises; [py_repr] renders a value that is not a string inside an
    f-string; [validate_email] is pydantic's [EmailStr]: [None] on a
    syntax error, otherwise the address the model stores. *)
Record World : Type := mkWorld {
  config : Config;
  requests_post : string -> form -> form -> string + Response;
  json_loads : string -> option json;
  py_repr : json -> string;
  validate_email : string -> option string
}.

(** ** Exceptions, effects and the handler monad *)

Inductive exn : Type :=
| HTTPException (code : Z) (detail : string)
| RequestException (msg : string)
| ValueError
| IndexError
| AttributeError
| RequestValidationError.

Inductive event : Type :=
| EvPost (url : string) (data headers : form)
| EvSleep (seconds : Z)
| EvPrint (line : string).

Definition M (A : Type) : Type := list event -> (exn + A) * list event.

Definition ret {A} (a : A) : M A := fun log => (inr a, log).

Definition raise {A} (e : exn) : M A := fun log => (inl e, log).

Definition bind {A B} (m : M A) (k : A -> M B) : M B :=
  fun log =>
    match m log with
    | (inr a, log') => k a log'
    | (inl e, log') => (inl e, log')
    end.

Definition emit (e : event) : M unit := fun log => (inr tt, log ++ [e]).

(** [try: body except ...: handler]; [handler e] is [None] when no
    [except] clause matches [e], which then propagates. *)
Definition try_except {A} (body : M A) (handler : exn -> option (M A)) : M A :=
  fun log =>
    match body log with
    | (inr a, log') => (inr a, log')
    | (inl e, log') =>
        match handler e with
        | Some h => h log'
        | None => (inl e, log')
        end
    end.

Declare Scope py_scope.
Delimit Scope py_scope with py.
Notation "x <- m ;; k" := (bind m (fun x => k))
  (at level 61, m at next level, right associativity) : py_scope.
Notation "m ;; k" := (bind m (fun _ => k))
  (at level 61, right associativity) : py_scope.
Local Open Scope py_scope.

Definition run {A} (m : M A) : (exn + A) * list event := m [].

(** ** The primitives the handler calls *)

(** [requests.post(url, data=..., headers=...)]. *)
Definition post (w : World) (url : string) (data headers : form) : M Response :=
  emit (EvPost url data headers) ;;
  match requests_post w url data headers with
  | inr r => ret r
  | inl msg => raise (RequestException msg)
  end.

(** [time.sleep(seconds)]. *)
Definition time_sleep (seconds : Z) : M unit := emit (EvSleep seconds).

(** [print(line)]. *)
Definition print (line : string) : M unit := emit (EvPrint line).

(** [response.json()]. *)
Definition response_json (w : World) (r : Response) : M json :=
  match json_loads w (text r) with
  | Some j => ret j
  | None => raise ValueError
  end.

(** [v.get(k, default)]: only a [dict] has the method. *)
Definition py_get (v : json) (k : string) (default : json) : M json :=
  match v with
  | JDict d =>
      ret (match dict_get k d with Some x => x | None => default end)
  | _ => raise AttributeError
  end.

(** [xs[0]]. *)
Definition first_item (xs : list string) : M string :=
  match xs with
  | x :: _ => ret x
  | [] => raise IndexError
  end.

(** [f"{v}"]. *)
Definition py_str (w : World) (v : json) : string :=
  match v with
  | JStr s => s
  | _ => py_repr w v
  end.

(** ** [register_contact] *)

Definition register_url : string :=
  "https://api.webinarjam.com/webinarjam/register".

(** [" ".join(name_parts[1:]) if len(name_parts) > 1 else ""]. *)
Definition last_name_of (name_parts : list string) : string :=
  if (1 <? length name_parts)%nat then join " " (tl name_parts) else "".

Definition payload (w : World) (first_name last_name : string)
    (contact : Contact) : form :=
  [ ("api_key", WEBINARJAM_API_KEY (config w));
    ("webinar_id", WEBINAR_ID (config w));
    ("schedule", WEBINAR_SCHEDULE_ID (config w));
    ("first_name", first_name);
    ("last_name", last_name);
    ("email", email contact);
    ("phone", phone contact) ].

Definition headers : form :=
  [ ("User-Agent",
     "Mozilla/5.0 (Windows NT 10.0; Win64; x64) AppleWebKit/537.36 (KHTML, like Gecko) Chrome/91.0.4472.124 Safari/537.36");
    ("Content-Type", "application/x-www-form-urlencoded") ].

Definition registered_message : string :=
  "Contact successfully registered for the webinar.".

Definition invalid_response_prefix : string :=
  "WebinarJam API returned an invalid response: ".

Definition responded_with_prefix : string :=
  "Failed to register contact. WebinarJam API responded with: ".

Definition communication_prefix : string :=
  "An error occurred while communicating with the WebinarJam API: ".

(** The body of the [try] block, from the POST to the mapped result. *)
Definition call_remote (w : World) (data : form) : M Registered :=
  response <- post w register_url data headers ;;
  time_sleep 2 ;;
  print ("Raw response text: " ++ text response) ;;
  if (status_code response =? 200)%Z then
    response_json <-
      try_except (response_json w response)
        (fun e =>
           match e with
           | ValueError =>
               Some (raise (HTTPException 500
                              (invalid_response_prefix ++ text response)))
           | _ => None
           end) ;;
    status <- py_get response_json "status" JNull ;;
    if py_eq_str status "success" then
      user <- py_get response_json "user" (JDict []) ;;
      uid <- py_get user "user_id" JNull ;;
      live <- py_get user "live_room_url" JNull ;;
      replay <- py_get user "replay_room_url" JNull ;;
      thank <- py_get user "thank_you_url" JNull ;;
      ret (mkRegistered registered_message uid live replay thank)
    else
      error <- py_get response_json "error" (JStr "Unknown error") ;;
      raise (HTTPException 400 (responded_with_prefix ++ py_str w error))
  else
    raise (HTTPException (status_code response)
             (responded_with_prefix ++ text response)).

Definition register_contact (w : World) (contact : Contact) : M Registered :=
  let name_parts := split (name contact) in
  first_name <- first_item name_parts ;;
  let last_name := last_name_of name_parts in
  try_except (call_remote w (payload w first_name last_name contact))
    (fun e =>
       match e with
       | RequestException msg =>
           Some (raise (HTTPException 500 (communication_prefix ++ msg)))
       | _ => None
       end).

(** ** The endpoint [POST /register] *)

(** Validation of the body against [Contact]: the three fields are
    required, and [email] is an [EmailStr]. *)
Definition Contact_validate (w : World) (raw : RawRequest) : option Contact :=
  match raw_name raw, raw_email raw, raw_phone raw with
  | Some n, Some e, Some p =>
      match validate_email w e with
      | Some e' => Some (mkContact n e' p)
      | None => None
      end
  | _, _, _ => None
  end.

(** [@app.post("/register")]: the handler runs on a body that validates;
    any other body is refused by the framework. *)
Definition post_register (w : World) (raw : RawRequest) : M Registered :=
  match Contact_validate w raw with
  | Some contact => register_contact w contact
  | None => raise RequestValidationError
  end.

(** The HTTP status the framework answers with. *)
Definition http_status (result : exn + Registered) : Z :=
  match result with
  | inr _ => 200
  | inl (HTTPException code _) => code
  | inl RequestValidationError => 422
  | inl _ => 500
  end.

(** The two records a call may end with. *)
Definition is_success (result : exn + Registered) : bool :=
  match result with
  | inr _ => true
  | inl _ => false
  end.

Definition is_failure (result : exn + Registered) : bool :=
  match result with
  | inl (HTTPException _ _) => true
  | _ => false
  end.

(** ** Measures on the log of effects *)

Definition is_post (e : event) : bool :=
  match e with
  | EvPost _ _ _ => true
  | _ => false
  end.

(** Number of outbound calls. *)
Definition posts (log : list event) : nat := length (filter is_post log).

(** Seconds spent in [time.sleep]. *)
Fixpoint slept (log : list event) : Z :=
  match log with
  | [] => 0
  | EvSleep s :: rest => s + slept rest
  | _ :: rest => slept rest
  end.

(** The [data] of every POST, in order. *)
Fixpoint posted (log : list event) : list form :=
  match log with
  | [] => []
  | EvPost _ data _ :: rest => data :: posted rest
  | _ :: rest => posted rest
  end.

(** The value of a form field. *)
Fixpoint form_get (k : string) (data : form) : option string :=
  match data with
  | [] => None
  | (k', v) :: rest => if String.eqb k k' then Some v else form_get k rest
  end.

(** The [first_name] and [last_name] sent to the remote API, per POST. *)
Definition sent_names (log : list event)
    : list (option string * option string) :=
  map (fun data => (form_get "first_name" data, form_get "last_name" data))
    (posted log).


(** ** Reading a parsed body *)

(** [d.get(k)], with [None] for a missing key. *)
Definition field (k : string) (d : list (string * json)) : json :=
  match dict_get k d with
  | Some v => v
  | None => JNull
  end.

(** The entries of the body's nested [user] object; no entries when the
    body has no ["user"] key; undefined when ["user"] is not an object. *)
Definition nested_user (body : list (string * json))
    : option (list (string * json)) :=
  match dict_get "user" body with
  | None => Some []
  | Some (JDict u) => Some u
  | Some _ => None
  end.

(** [body.get('error', 'Unknown error')]. *)
Definition error_of (body : list (string * json)) : json :=
  match dict_get "error" body with
  | Some v => v
  | None => JStr "Unknown error"
  end.

(** ** The mapping, as a function of the response *)

(** The result the handler maps a received response onto. *)
Definition mapped (w : World) (r : Response) : exn + Registered :=
  if (status_code r =? 200)%Z then
    match json_loads w (text r) with
    | None => inl (HTTPException 500 (invalid_response_prefix ++ text r))
    | Some (JDict body) =>
        if py_eq_str (field "status" body) "success" then
          match nested_user body with
          | Some u =>
              inr (mkRegistered registered_message
                     (field "user_id" u) (field "live_room_url" u)
                     (field "replay_room_url" u) (field "thank_you_url" u))
          | None => inl AttributeError
          end
        else
          inl (HTTPException 400
                 (responded_with_prefix ++ py_str w (error_of body)))
    | Some _ => inl AttributeError
    end
  else
    inl (HTTPException (status_code r) (responded_with_prefix ++ text r)).

(** The effects of a call that received [r]. *)
Definition effects_of_response (data : form) (r : Response) : list event :=
  [ EvPost register_url data headers;
    EvSleep 2;
    EvPrint ("Raw response text: " ++ text r) ].

Ltac unfold_handler :=
  unfold run, register_contact, call_remote, post, time_sleep, print,
    response_json, first_item, try_except, bind, emit, raise, ret.

(** ** Sample worlds *)

Definition quoted (s : string) : string :=
  (String "034"%char s ++ String "034"%char EmptyString)%string.

(** [{"status":"success","user":{"user_id":"u1", ...}}]. *)
Definition body_success : string :=
  ("{" ++ quoted "status" ++ ":" ++ quoted "success" ++ ","
   ++ quoted "user" ++ ":{"
   ++ quoted "user_id" ++ ":" ++ quoted "u1" ++ ","
   ++ quoted "live_room_url" ++ ":" ++ quoted "http://x" ++ ","
   ++ quoted "replay_room_url" ++ ":" ++ quoted "http://y" ++ ","
   ++ quoted "thank_you_url" ++ ":" ++ quoted "http://z" ++ "}}")%string.

(** [{"status":"failed","error":"Webinar full"}]. *)
Definition body_failed : string :=
  ("{" ++ quoted "status" ++ ":" ++ quoted "failed" ++ ","
   ++ quoted "error" ++ ":" ++ quoted "Webinar full" ++ "}")%string.

(** [{"status":"success","user":null}]. *)
Definition body_null_user : string :=
  ("{" ++ quoted "status" ++ ":" ++ quoted "success" ++ ","
   ++ quoted "user" ++ ":null}")%string.

Definition sample_user : list (string * json) :=
  [ ("user_id", JStr "u1");
    ("live_room_url", JStr "http://x");
    ("replay_room_url", JStr "http://y");
    ("thank_you_url", JStr "http://z") ].

(** [json.loads] on the sample bodies; any other text is refused. *)
Definition sample_json_loads (s : string) : option json :=
  if String.eqb s body_success then
    Some (JDict [("status", JStr "success"); ("user", JDict sample_user)])
  else if String.eqb s body_failed then
    Some (JDict [("status", JStr "failed"); ("error", JStr "Webinar full")])
  else if String.eqb s body_null_user then
    Some (JDict [("status", JStr "success"); ("user", JNull)])
  else if String.eqb s "[]" then Some (JList [])
  else if String.eqb s "{}" then Some (JDict [])
  else None.

Definition sample_repr (v : json) : string :=
  match v with
  | JNull => "None"
  | JBool true => "True"
  | JBool false => "False"
  | JNum literal => literal
  | _ => "..."
  end.

Fixpoint contains_at (s : string) : bool :=
  match s with
  | EmptyString => false
  | String c rest => Ascii.eqb c "@"%char || contains_at rest
  end.

(** A stand-in for the e-mail check: an address needs an [@]. *)
Definition sample_validate_email (e : string) : option string :=
  if contains_at e then Some e else None.

Definition sample_config : Config :=
  mkConfig "key" "7" "3".

(** The world in which every call to the remote API ends with [answer]. *)
Definition sample_world (answer : string + Response) : World :=
  mkWorld sample_config (fun _ _ _ => answer)
    sample_json_loads sample_repr sample_validate_email.

Definition jane : Contact := mkContact "Jane Doe" "jane@example.com" "555-0100".

(** ** Start-up: the settings of the module *)

(** [os.environ]. *)
Definition environ : Type := list (string * string).

(** [os.getenv(k)]. *)
Definition getenv (env : environ) (k : string) : option string :=
  form_get k env.

(** Truth value of what [os.getenv] returns: [None] and the empty text are
    false. *)
Definition truthy (v : option string) : bool :=
  match v with
  | Some (String _ _) => true
  | _ => false
  end.

(** [all([...])]. *)
Definition all (vs : list (option string)) : bool := forallb truthy vs.

Inductive startup_error : Type :=
| RuntimeError (msg : string).

Definition missing_variables_message : string :=
  "One or more required environment variables are missing. Please ensure WEBINARJAM_API_KEY, WEBINARJAM_WEBINAR_ID, and WEBINARJAM_WEBINAR_SCHEDULE_ID are set.".

(** The environment the settings are read from: [load_dotenv()], which
    belongs to a library and is a parameter here, runs when [RENDER] is not
    set. *)
Definition effective_environ (load_dotenv : environ -> environ)
    (env : environ) : environ :=
  match getenv env "RENDER" with
  | None => load_dotenv env
  | Some _ => env
  end.

(** The text of a setting that passed the check. *)
Definition setting (v : option string) : string :=
  match v with
  | Some s => s
  | None => EmptyString
  end.

(** The statements of the module that run at import: the three settings
    are read, and the import fails unless all of them are true. *)
Definition startup (load_dotenv : environ -> environ) (env : environ)
    : startup_error + Config :=
  let env' := effective_environ load_dotenv env in
  let api_key := getenv env' "WEBINARJAM_API_KEY" in
  let webinar_id := getenv env' "WEBINARJAM_WEBINAR_ID" in
  let schedule_id := getenv env' "WEBINARJAM_WEBINAR_SCHEDULE_ID" in
  if negb (all [api_key; webinar_id; schedule_id])
  then inl (RuntimeError missing_variables_message)
  else inr (mkConfig (setting api_key) (setting webinar_id)
              (setting schedule_id)).

(** The names of the three required variables. *)
Definition required_variables : list string :=
  [ "WEBINARJAM_API_KEY"; "WEBINARJAM_WEBINAR_ID";
    "WEBINARJAM_WEBINAR_SCHEDULE_ID" ].

(** ** Shapes of a parsed body the handler has no branch for *)

(** A parsed body on which one of the [.get] calls of the handler raises:
    it is not an object, or it is an object whose [status] is "success"
    and whose [user] is present and not an object. *)
Definition unexpected_shape (j : json) : bool :=
  match j with
  | JDict body =>
      py_eq_str (field "status" body) "success"
      && match nested_user body with
         | Some _ => false
         | None => true
         end
  | _ => true
  end.

(** The lines given to [print], in order. *)
Fixpoint printed (log : list event) : list string :=
  match log with
  | [] => []
  | EvPrint line :: rest => line :: printed rest
  | _ :: rest => printed rest
  end.

(** A [.env] file that supplies the three settings where the environment
    lacks them. *)
Definition sample_load_dotenv (env : environ) : environ :=
  env ++ [ ("WEBINARJAM_API_KEY", "key");
           ("WEBINARJAM_WEBINAR_ID", "7");
           ("WEBINARJAM_WEBINAR_SCHEDULE_ID", "3") ].

(** ** The handler as a task of the event loop *)

(** The body of an [async def], cut at its [await] expressions. The event
    loop runs on one thread: it runs a task without interruption up to the
    task's next [await], and only there does another task get its turn.
    [Final body] is a body with no [await] left; [Await body rest] runs
    [body], suspends, and goes on with [rest] at its next turn. *)
Inductive coroutine (A : Type) : Type :=
| Final (body : M A)
| Await (body : M unit) (rest : coroutine A).

Arguments Final {A} body.
Arguments Await {A} body rest.

(** [async def register_contact(contact)]: no [await] occurs in its body;
    the delay is the call [time.sleep(2)], which returns when the calling
    thread has slept. *)
Definition register_contact_task (w : World) (contact : Contact)
    : coroutine Registered :=
  Final (register_contact w contact).

(** Number of turns a task takes at most. *)
Fixpoint turns {A} (t : coroutine A) : nat :=
  match t with
  | Final _ => 1
  | Await _ rest => S (turns rest)
  end.

(** One turn of a task: the effects it performs up to its next [await],
    and what is left of it, [None] when it has returned or raised. *)
Definition resume {A} (t : coroutine A)
    : list event * option (coroutine A) :=
  match t with
  | Final body => (snd (run body), None)
  | Await body rest =>
      match run body with
      | (inr _, log) => (log, Some rest)
      | (inl _, log) => (log, None)
      end
  end.

(** The loop: the task at the head of the ready queue takes its turn and,
    if it suspended, joins the back of the queue. The log holds every
    effect with the number of the task that performed it, in the order in
    which the thread performed them. *)
Fixpoint event_loop {A} (fuel : nat) (ready : list (nat * coroutine A))
    : list (nat * event) :=
  match fuel, ready with
  | S fuel', (i, t) :: queue =>
      let (effects, left) := resume t in
      map (pair i) effects
      ++ event_loop fuel'
           (queue ++ match left with
                     | Some t' => [(i, t')]
                     | None => []
                     end)
  | _, _ => []
  end.

(** The requests in flight, numbered from 0 in the order of arrival, and
    served by the loop to the end. *)
Definition serve {A} (tasks : list (coroutine A)) : list (nat * event) :=
  event_loop (list_sum (map turns tasks))
    (combine (seq 0 (length tasks)) tasks).

(** Seconds the thread of the loop has slept before task [i] performs its
    first effect. *)
Fixpoint slept_before (i : nat) (log : list (nat * event)) : Z :=
  match log with
  | [] => 0
  | (j, e) :: rest =>
      if Nat.eqb i j then 0
      else match e with
           | EvSleep s => s + slept_before i rest
           | _ => slept_before i rest
           end
  end.

Definition mary : Contact :=
  mkContact "Mary Jane Watson" "mary@example.com" "555-0101".

(** * Properties *)

(** ** Strings *)

Lemma append_empty_r (s : string) : (s ++ "")%string = s.
Proof.
  induction s as [|c s IH]; simpl; [reflexivity | now rewrite IH].
Qed.

Lemma append_assoc' (a b c : string) :
  ((a ++ b) ++ c)%string = (a ++ b ++ c)%string.
Proof.
  induction a as [|x a IH]; simpl; [reflexivity | now rewrite IH].
Qed.

Lemma embeds_suffix (prefix s : string) : embeds s (prefix ++ s)%string.
Proof.
  exists prefix, EmptyString. now rewrite append_empty_r.
Qed.

Lemma embeds_refl (s : string) : embeds s s.
Proof. exact (embeds_suffix EmptyString s). Qed.

Lemma no_space_app (a b : string) :
  no_space (a ++ b)%string = no_space a && no_space b.
Proof.
  induction a as [|c a IH]; simpl; [reflexivity|].
  now rewrite IH, andb_assoc.
Qed.

Lemma flush_token (t : string) : is_token t = true -> flush t = [t].
Proof. destruct t; simpl; [discriminate | reflexivity]. Qed.

(** Reading a whitespace-free text extends the current token. *)
Lemma split_from_no_space (t : string) :
  forall cur s,
    no_space t = true ->
    split_from cur (t ++ s)%string = split_from (cur ++ t)%string s.
Proof.
  induction t as [|c t IH]; intros cur s Ht; simpl in *.
  - now rewrite append_empty_r.
  - apply andb_prop in Ht as [Hc Ht].
    apply negb_true_iff in Hc. rewrite Hc.
    rewrite (IH _ _ Ht), append_assoc'. reflexivity.
Qed.

(** A whitespace character closes the current token. *)
Lemma split_from_app_space (s1 : string) :
  forall cur c s2,
    is_space c = true ->
    split_from cur (s1 ++ String c s2)%string
    = split_from cur s1 ++ split s2.
Proof.
  induction s1 as [|d s1 IH]; intros cur c s2 Hc; simpl.
  - now rewrite Hc.
  - destruct (is_space d).
    + rewrite (IH _ _ _ Hc). now rewrite app_assoc.
    + now apply IH.
Qed.

Lemma split_empty : split "" = [].
Proof. reflexivity. Qed.

Lemma split_token (t : string) : is_token t = true -> split t = [t].
Proof.
  intros Ht. unfold split.
  assert (Hn : no_space t = true) by (destruct t; [discriminate | exact Ht]).
  rewrite <- (append_empty_r t) at 1.
  rewrite (split_from_no_space t "" "" Hn). simpl.
  now apply flush_token.
Qed.

Lemma split_app_space (s1 s2 : string) (c : ascii) :
  is_space c = true ->
  split (s1 ++ String c s2)%string = split s1 ++ split s2.
Proof. intros Hc. now apply split_from_app_space. Qed.

(** Every token [split] returns is non-empty and free of whitespace. *)
Lemma split_from_tokens (s : string) :
  forall cur, no_space cur = true -> Forall (fun t => is_token t = true) (split_from cur s).
Proof.
  induction s as [|c s IH]; intros cur Hcur; simpl.
  - destruct cur; simpl; constructor; [exact Hcur | constructor].
  - destruct (is_space c) eqn:Hc.
    + apply Forall_app. split; [|now apply IH].
      destruct cur; simpl; constructor; [exact Hcur | constructor].
    + apply IH. rewrite no_space_app, Hcur. simpl. now rewrite Hc.
Qed.

Lemma split_tokens (s : string) : Forall (fun t => is_token t = true) (split s).
Proof. now apply split_from_tokens. Qed.

(** [split] finds no token exactly in a text made of whitespace only. *)
Lemma split_from_nil (s : string) :
  forall cur, split_from cur s = [] <-> cur = EmptyString /\ all_space s = true.
Proof.
  induction s as [|c s IH]; intros cur; simpl.
  - destruct cur; simpl; split; intros H; try discriminate; auto.
    now destruct H.
  - destruct (is_space c) eqn:Hc; simpl.
    + split.
      * intros H. apply app_eq_nil in H as [H1 H2].
        apply IH in H2 as [_ H2]. destruct cur; [auto | discriminate].
      * intros [-> H]. simpl. now apply IH.
    + rewrite IH. split; [|intros [_ H]; discriminate].
      intros [H _]. destruct cur; discriminate.
Qed.

Lemma split_nil_iff (s : string) : split s = [] <-> all_space s = true.
Proof.
  unfold split. rewrite split_from_nil. tauto.
Qed.

(** Tokens joined by single spaces are found again by [split]. *)
Lemma split_join (ts : list string) :
  Forall (fun t => is_token t = true) ts -> split (join " " ts) = ts.
Proof.
  induction 1 as [|t ts Ht Hts IH]; [reflexivity|].
  destruct ts as [|u ts].
  - simpl. now apply split_token.
  - change (join " " (t :: u :: ts))
      with (t ++ String " "%char (join " " (u :: ts)))%string.
    rewrite split_app_space by reflexivity.
    rewrite IH, split_token by assumption. reflexivity.
Qed.

Lemma last_name_of_cons (first : string) (rest : list string) :
  last_name_of (first :: rest) = join " " rest.
Proof. destruct rest; reflexivity. Qed.

(** ** The handler, case by case *)

Section Handler.

Variable w : World.
Variable contact : Contact.

Lemma register_contact_no_token :
  split (name contact) = [] ->
  run (register_contact w contact) = (inl IndexError, []).
Proof.
  intros Hname. unfold_handler. now rewrite Hname.
Qed.

Section WithName.

Variables (first : string) (rest : list string).
Hypothesis Hname : split (name contact) = first :: rest.

Let data : form := payload w first (last_name_of (first :: rest)) contact.

Lemma register_contact_transport_failure (msg : string) :
  requests_post w register_url data headers = inl msg ->
  run (register_contact w contact)
  = (inl (HTTPException 500 (communication_prefix ++ msg)),
     [EvPost register_url data headers]).
Proof.
  intros Hpost. unfold_handler. rewrite Hname. simpl.
  fold data. now rewrite Hpost.
Qed.

Lemma register_contact_response (r : Response) :
  requests_post w register_url data headers = inr r ->
  run (register_contact w contact)
  = (mapped w r, effects_of_response data r).
Proof.
  intros Hpost. unfold_handler. rewrite Hname. simpl.
  fold data. rewrite Hpost. unfold mapped, effects_of_response. simpl.
  destruct (status_code r =? 200)%Z; [|reflexivity].
  destruct (json_loads w (text r)) as [j|]; [|reflexivity].
  destruct j as [| | | |items|body]; try reflexivity.
  unfold py_get, field, nested_user, error_of. simpl.
  destruct (dict_get "status" body) as [st|]; simpl; [|reflexivity].
  destruct (py_eq_str st "success"); [|reflexivity].
  destruct (dict_get "user" body) as [[| | | |items|u]|]; reflexivity.
Qed.

End WithName.

End Handler.

(** The effects of a call whose name has a token: the POST alone when it
    fails, the POST, the sleep and the log line when it is answered. *)
Lemma register_contact_log (w : World) (contact : Contact)
    (first : string) (rest : list string) :
  split (name contact) = first :: rest ->
  let data := payload w first (last_name_of (first :: rest)) contact in
  snd (run (register_contact w contact))
  = match requests_post w register_url data headers with
    | inr r => effects_of_response data r
    | inl _ => [ EvPost register_url data headers ]
    end.
Proof.
  intros Hname data.
  destruct (requests_post w register_url data headers) as [msg|r] eqn:Hpost.
  - now rewrite (register_contact_transport_failure w contact first rest
                   Hname msg Hpost).
  - now rewrite (register_contact_response w contact first rest Hname r Hpost).
Qed.

(** ** Outcomes *)

(** Whatever the world does, a call ends in a success record, in an
    [HTTPException], or in one of the two exceptions that the handler's
    own statements raise and nothing catches. *)
Lemma register_contact_outcomes (w : World) (contact : Contact) :
  let result := fst (run (register_contact w contact)) in
  is_success result = true \/ is_failure result = true
  \/ result = inl IndexError \/ result = inl AttributeError.
Proof.
  destruct (split (name contact)) as [|first rest] eqn:Hname.
  - rewrite (register_contact_no_token w contact Hname). simpl. auto.
  - destruct (requests_post w register_url
                (payload w first (last_name_of (first :: rest)) contact)
                headers) as [msg|r] eqn:Hpost.
    + rewrite (register_contact_transport_failure w contact first rest
                 Hname msg Hpost). simpl. auto.
    + rewrite (register_contact_response w contact first rest Hname r Hpost).
      simpl. unfold mapped.
      destruct (status_code r =? 200)%Z; simpl; auto.
      destruct (json_loads w (text r)) as [[| | | |items|body]|]; simpl; auto.
      destruct (py_eq_str (field "status" body) "success"); simpl; auto.
      destruct (nested_user body); simpl; auto.
Qed.

(** A success record and a failure record exclude each other. *)
Lemma success_excludes_failure (result : exn + Registered) :
  is_success result && is_failure result = false.
Proof. destruct result as [[]|]; reflexivity. Qed.

(** C1. Every valid contact is to end in exactly one success record or one
    failure record, with no exception escaping. The handler breaks this
    when the remote API answers 200 with a JSON body that is not an object:
    for the contact "Jane Doe" and the body [[]] the call posts, sleeps,
    logs, and then raises [AttributeError], which no [except] clause
    catches; the result is neither a success nor a failure record. *)
Theorem outcome_escapes_on_list_body :
  let w := sample_world (inr (mkResponse 200 "[]")) in
  let result := run (register_contact w jane) in
  Contact_validate w
    (mkRaw (Some "Jane Doe") (Some "jane@example.com") (Some "555-0100"))
  = Some jane
  /\ result
     = (inl AttributeError,
        effects_of_response (payload w "Jane" "Doe" jane)
          (mkResponse 200 "[]"))
  /\ is_success (fst result) = false
  /\ is_failure (fst result) = false.
Proof. vm_compute. repeat split; reflexivity. Qed.

(** ** The delay *)

(** C2, as stated: whenever the remote call was made, the handler has slept
    for 2 seconds when it returns. A call that fails at the transport level
    refutes it: the [except] clause is reached without [time.sleep]. *)
Lemma delay_skipped_on_transport_failure :
  ~ (forall (w : World) (contact : Contact),
       let log := snd (run (register_contact w contact)) in
       (0 < posts log)%nat -> slept log = 2%Z).
Proof.
  intros H.
  specialize (H (sample_world (inl "timed out")) jane).
  vm_compute in H. specialize (H (le_n 1)). discriminate H.
Qed.

(** C2, amended. When the remote call returns a response, whatever its
    status and body, the handler sleeps once, for 2 seconds, right after
    the POST and before it logs and maps the response, so that the call
    takes at least 2 seconds; when the POST fails at the transport level
    the handler does not sleep. *)
Theorem delay_follows_response (w : World) (contact : Contact)
    (first : string) (rest : list string) :
  split (name contact) = first :: rest ->
  let data := payload w first (last_name_of (first :: rest)) contact in
  let log := snd (run (register_contact w contact)) in
  match requests_post w register_url data headers with
  | inr r =>
      log = [ EvPost register_url data headers;
              EvSleep 2;
              EvPrint ("Raw response text: " ++ text r) ]
      /\ slept log = 2%Z
  | inl _ =>
      log = [ EvPost register_url data headers ] /\ slept log = 0%Z
  end.
Proof.
  intros Hname data log. subst log data.
  rewrite (register_contact_log w contact first rest Hname).
  destruct (requests_post w register_url
              (payload w first (last_name_of (first :: rest)) contact)
              headers); split; reflexivity.
Qed.

Lemma delay_follows_response_witness :
  let w := sample_world (inr (mkResponse 503 "Service Unavailable")) in
  let log := snd (run (register_contact w jane)) in
  log = [ EvPost register_url (payload w "Jane" "Doe" jane) headers;
          EvSleep 2;
          EvPrint "Raw response text: Service Unavailable" ]
  /\ slept log = 2%Z.
Proof.
  exact (delay_follows_response
           (sample_world (inr (mkResponse 503 "Service Unavailable")))
           jane "Jane" ["Doe"] eq_refl).
Defined.

(** ** Validation *)

(** A body validates exactly when its three fields are present and the
    e-mail check accepts the address. *)
Lemma Contact_validate_none (w : World) (raw : RawRequest) :
  Contact_validate w raw = None
  <-> raw_name raw = None \/ raw_email raw = None \/ raw_phone raw = None
      \/ exists e, raw_email raw = Some e /\ validate_email w e = None.
Proof.
  unfold Contact_validate. destruct raw as [n e p]; simpl. split.
  - destruct n as [n|]; [|auto]. destruct e as [e|]; [|auto].
    destruct p as [p|]; [|auto].
    destruct (validate_email w e) eqn:He; [discriminate|].
    intros _. right; right; right. now exists e.
  - intros [->|[->|[->|[e0 [-> He]]]]].
    + reflexivity.
    + now destruct n.
    + destruct n, e; reflexivity.
    + rewrite He. destruct n, p; reflexivity.
Qed.

(** C3. A request in which [name], [email] or [phone] is missing, or whose
    e-mail is not syntactically valid, fails with the validation error
    that maps to HTTP 422, and no POST to the remote API is attempted. *)
Theorem invalid_request_rejected (w : World) (raw : RawRequest) :
  raw_name raw = None \/ raw_email raw = None \/ raw_phone raw = None
  \/ (exists e, raw_email raw = Some e /\ validate_email w e = None) ->
  let result := run (post_register w raw) in
  fst result = inl RequestValidationError
  /\ http_status (fst result) = 422%Z
  /\ posts (snd result) = 0%nat.
Proof.
  intros H. apply Contact_validate_none in H.
  unfold post_register. rewrite H. repeat split.
Qed.

Lemma invalid_request_rejected_witness :
  let w := sample_world (inr (mkResponse 200 body_success)) in
  let result :=
    run (post_register w
           (mkRaw (Some "Jane Doe") (Some "not-an-email") (Some "555-0100"))) in
  fst result = inl RequestValidationError
  /\ http_status (fst result) = 422%Z
  /\ posts (snd result) = 0%nat.
Proof.
  apply (invalid_request_rejected
           (sample_world (inr (mkResponse 200 body_success)))
           (mkRaw (Some "Jane Doe") (Some "not-an-email") (Some "555-0100"))).
  right; right; right. exists "not-an-email". split; reflexivity.
Defined.

(** ** Name splitting *)

(** C4. The name is split on whitespace: the first token is sent as
    [first_name], the remaining tokens joined by single spaces as
    [last_name], the empty string when there is one token only; every token
    is non-empty and free of whitespace. A name without a token reaches no
    POST. "Jane Doe" gives "Jane" and "Doe", "Madonna" gives "Madonna" and
    the empty string, "Mary Jane Watson" gives "Mary" and "Jane Watson". *)
Theorem name_splitting :
  (forall (w : World) (contact : Contact),
     let result := run (register_contact w contact) in
     Forall (fun t => is_token t = true) (split (name contact))
     /\ match split (name contact) with
        | [] => result = (inl IndexError, [])
        | [first] => sent_names (snd result) = [(Some first, Some "")]
        | first :: rest =>
            sent_names (snd result) = [(Some first, Some (join " " rest))]
        end)
  /\ (forall (w : World) (e p : string),
        sent_names (snd (run (register_contact w (mkContact "Jane Doe" e p))))
        = [(Some "Jane", Some "Doe")]
        /\ sent_names
             (snd (run (register_contact w (mkContact "Madonna" e p))))
           = [(Some "Madonna", Some "")]
        /\ sent_names
             (snd (run (register_contact w
                          (mkContact "Mary Jane Watson" e p))))
           = [(Some "Mary", Some "Jane Watson")]).
Proof.
  assert (General :
    forall (w : World) (contact : Contact) first rest,
      split (name contact) = first :: rest ->
      sent_names (snd (run (register_contact w contact)))
      = [(Some first, Some (join " " rest))]).
  { intros w contact first rest Hname.
    rewrite (register_contact_log w contact first rest Hname).
    destruct (requests_post w register_url
                (payload w first (last_name_of (first :: rest)) contact)
                headers);
      unfold sent_names; simpl; now rewrite last_name_of_cons. }
  split.
  - intros w contact result. split; [apply split_tokens|].
    destruct (split (name contact)) as [|first rest] eqn:Hname.
    + now apply register_contact_no_token.
    + subst result. rewrite (General w contact first rest Hname).
      now destruct rest.
  - intros w e p. split; [|split].
    + exact (General w (mkContact "Jane Doe" e p) "Jane" ["Doe"] eq_refl).
    + exact (General w (mkContact "Madonna" e p) "Madonna" [] eq_refl).
    + exact (General w (mkContact "Mary Jane Watson" e p)
               "Mary" ["Jane"; "Watson"] eq_refl).
Qed.

(** ** Mapping of the remote answer *)

Lemma not_success_status (body : list (string * json)) :
  dict_get "status" body <> Some (JStr "success") ->
  py_eq_str (field "status" body) "success" = false.
Proof.
  intros H. unfold field.
  destruct (dict_get "status" body) as [[| | |t| |]|]; try reflexivity.
  simpl. destruct (String.eqb t "success") eqn:E; [|reflexivity].
  apply String.eqb_eq in E. subst t. now elim H.
Qed.

(** C5. HTTP 200 with a parseable body whose [status] is "success" is to
    give a success record whose four fields are [None] where the nested
    [user] lacks them. The handler breaks this when [user] is present and
    not an object: for the body [{"status":"success","user":null}] the
    call [response_json.get("user", {})] returns [None], the default being
    for a missing key only, and [user.get("user_id")] raises
    [AttributeError], which nothing catches; no success record is
    returned. *)
Theorem success_escapes_on_null_user :
  let w := sample_world (inr (mkResponse 200 body_null_user)) in
  let result := run (register_contact w jane) in
  status_code (mkResponse 200 body_null_user) = 200%Z
  /\ json_loads w body_null_user
     = Some (JDict [("status", JStr "success"); ("user", JNull)])
  /\ result
     = (inl AttributeError,
        effects_of_response (payload w "Jane" "Doe" jane)
          (mkResponse 200 body_null_user))
  /\ is_success (fst result) = false.
Proof. vm_compute. repeat split; reflexivity. Qed.

(** X11. HTTP 200 with a body that parses to an object whose [status] is
    "success" and whose [user] is absent or is an object: the handler
    returns the success record, with the fixed message and with [user_id],
    [live_room_url], [replay_room_url] and [thank_you_url] read from the
    nested [user] object, each [None] when that object lacks it (and all
    four when the body has no [user]). *)
Theorem success_mapping (w : World) (contact : Contact)
    (first : string) (rest : list string) (r : Response)
    (body user : list (string * json)) :
  split (name contact) = first :: rest ->
  requests_post w register_url
    (payload w first (last_name_of (first :: rest)) contact) headers = inr r ->
  status_code r = 200%Z ->
  json_loads w (text r) = Some (JDict body) ->
  dict_get "status" body = Some (JStr "success") ->
  nested_user body = Some user ->
  exists record,
    fst (run (register_contact w contact)) = inr record
    /\ message record = registered_message
    /\ user_id record
       = match dict_get "user_id" user with Some v => v | None => JNull end
    /\ live_room_url record
       = match dict_get "live_room_url" user with
         | Some v => v | None => JNull end
    /\ replay_room_url record
       = match dict_get "replay_room_url" user with
         | Some v => v | None => JNull end
    /\ thank_you_url record
       = match dict_get "thank_you_url" user with
         | Some v => v | None => JNull end.
Proof.
  intros Hname Hpost Hcode Hjson Hstatus Huser.
  rewrite (register_contact_response w contact first rest Hname r Hpost).
  unfold mapped. rewrite Hcode, Hjson. simpl.
  unfold field at 1. rewrite Hstatus, Huser. simpl.
  eexists. split; [reflexivity|]. repeat split.
Qed.

Lemma success_mapping_witness :
  let w := sample_world (inr (mkResponse 200 body_success)) in
  exists record,
    fst (run (register_contact w jane)) = inr record
    /\ message record = "Contact successfully registered for the webinar."
    /\ user_id record = JStr "u1"
    /\ live_room_url record = JStr "http://x"
    /\ replay_room_url record = JStr "http://y"
    /\ thank_you_url record = JStr "http://z".
Proof.
  exact (success_mapping
           (sample_world (inr (mkResponse 200 body_success))) jane
           "Jane" ["Doe"] (mkResponse 200 body_success)
           [("status", JStr "success"); ("user", JDict sample_user)]
           sample_user eq_refl eq_refl eq_refl eq_refl eq_refl eq_refl).
Defined.

(** C6. HTTP 200 with a body that parses to an object whose [status] is
    not "success": the handler fails with status 400, and the message
    embeds the body's [error] field, or "Unknown error" when the body has
    none. *)
Theorem business_error_mapping (w : World) (contact : Contact)
    (first : string) (rest : list string) (r : Response)
    (body : list (string * json)) :
  split (name contact) = first :: rest ->
  requests_post w register_url
    (payload w first (last_name_of (first :: rest)) contact) headers = inr r ->
  status_code r = 200%Z ->
  json_loads w (text r) = Some (JDict body) ->
  dict_get "status" body <> Some (JStr "success") ->
  exists detail,
    fst (run (register_contact w contact)) = inl (HTTPException 400 detail)
    /\ detail
       = (responded_with_prefix
          ++ match dict_get "error" body with
             | Some (JStr e) => e
             | Some v => py_repr w v
             | None => "Unknown error"
             end)%string
    /\ match dict_get "error" body with
       | Some v => embeds (py_str w v) detail
       | None => embeds "Unknown error" detail
       end.
Proof.
  intros Hname Hpost Hcode Hjson Hstatus.
  rewrite (register_contact_response w contact first rest Hname r Hpost).
  unfold mapped. rewrite Hcode, Hjson. simpl.
  rewrite (not_success_status body Hstatus).
  eexists. split; [reflexivity|]. unfold error_of.
  destruct (dict_get "error" body) as [v|].
  - split; [now destruct v|].
    exact (embeds_suffix responded_with_prefix (py_str w v)).
  - split; [reflexivity|].
    exact (embeds_suffix responded_with_prefix "Unknown error").
Qed.

Lemma business_error_mapping_witness :
  let w := sample_world (inr (mkResponse 200 body_failed)) in
  exists detail,
    fst (run (register_contact w jane)) = inl (HTTPException 400 detail)
    /\ detail
       = "Failed to register contact. WebinarJam API responded with: Webinar full"
    /\ embeds "Webinar full" detail.
Proof.
  refine (business_error_mapping
            (sample_world (inr (mkResponse 200 body_failed))) jane
            "Jane" ["Doe"] (mkResponse 200 body_failed)
            [("status", JStr "failed"); ("error", JStr "Webinar full")]
            eq_refl eq_refl eq_refl eq_refl _).
  discriminate.
Defined.

(** C7. A response whose HTTP status is not 200: the handler fails with
    the remote status code, and the message embeds the raw body text. *)
Theorem remote_status_mapping (w : World) (contact : Contact)
    (first : string) (rest : list string) (r : Response) :
  split (name contact) = first :: rest ->
  requests_post w register_url
    (payload w first (last_name_of (first :: rest)) contact) headers = inr r ->
  status_code r <> 200%Z ->
  exists detail,
    fst (run (register_contact w contact))
    = inl (HTTPException (status_code r) detail)
    /\ detail = (responded_with_prefix ++ text r)%string
    /\ embeds (text r) detail.
Proof.
  intros Hname Hpost Hcode.
  rewrite (register_contact_response w contact first rest Hname r Hpost).
  unfold mapped. apply Z.eqb_neq in Hcode. rewrite Hcode.
  eexists. split; [reflexivity|]. split; [reflexivity|].
  exact (embeds_suffix responded_with_prefix (text r)).
Qed.

Lemma remote_status_mapping_witness :
  let w := sample_world (inr (mkResponse 503 "Service Unavailable")) in
  exists detail,
    fst (run (register_contact w jane)) = inl (HTTPException 503 detail)
    /\ detail
       = "Failed to register contact. WebinarJam API responded with: Service Unavailable"
    /\ embeds "Service Unavailable" detail.
Proof.
  refine (remote_status_mapping
            (sample_world (inr (mkResponse 503 "Service Unavailable"))) jane
            "Jane" ["Doe"] (mkResponse 503 "Service Unavailable")
            eq_refl eq_refl _).
  discriminate.
Defined.

(** C8. A POST that fails at the transport level: the handler fails with
    status 500, and the message embeds the text of the transport error. *)
Theorem transport_failure_mapping (w : World) (contact : Contact)
    (first : string) (rest : list string) (msg : string) :
  split (name contact) = first :: rest ->
  requests_post w register_url
    (payload w first (last_name_of (first :: rest)) contact) headers
  = inl msg ->
  exists detail,
    fst (run (register_contact w contact)) = inl (HTTPException 500 detail)
    /\ detail = (communication_prefix ++ msg)%string
    /\ embeds msg detail.
Proof.
  intros Hname Hpost.
  rewrite (register_contact_transport_failure w contact first rest
             Hname msg Hpost).
  eexists. split; [reflexivity|]. split; [reflexivity|].
  exact (embeds_suffix communication_prefix msg).
Qed.

Lemma transport_failure_mapping_witness :
  let w := sample_world (inl "Read timed out.") in
  exists detail,
    fst (run (register_contact w jane)) = inl (HTTPException 500 detail)
    /\ detail
       = "An error occurred while communicating with the WebinarJam API: Read timed out."
    /\ embeds "Read timed out." detail.
Proof.
  exact (transport_failure_mapping
           (sample_world (inl "Read timed out.")) jane
           "Jane" ["Doe"] "Read timed out." eq_refl eq_refl).
Defined.

(** ** A name without a token *)

(** C10. A request whose name holds no token (it is empty or made of
    whitespace only) and whose e-mail and phone are valid passes the
    validation of [Contact]; the handler then raises [IndexError] on the
    first token, before any POST: the call ends in no success record, no
    [HTTPException] and no validation error. *)
Theorem blank_name_raises_IndexError (w : World) (n e e' p : string) :
  all_space n = true ->
  validate_email w e = Some e' ->
  let raw := mkRaw (Some n) (Some e) (Some p) in
  let result := run (post_register w raw) in
  split n = []
  /\ Contact_validate w raw = Some (mkContact n e' p)
  /\ result = (inl IndexError, [])
  /\ posts (snd result) = 0%nat
  /\ is_success (fst result) = false
  /\ is_failure (fst result) = false
  /\ fst result <> inl RequestValidationError
  /\ http_status (fst result) <> 422%Z.
Proof.
  intros Hn He raw result.
  assert (Hsplit : split n = []) by now apply split_nil_iff.
  assert (Hval : Contact_validate w raw = Some (mkContact n e' p)).
  { unfold Contact_validate, raw. simpl. now rewrite He. }
  assert (Hres : result = (inl IndexError, [])).
  { unfold result, post_register. rewrite Hval.
    now apply register_contact_no_token. }
  rewrite Hres. simpl. repeat split; try assumption; discriminate.
Qed.

Lemma blank_name_raises_IndexError_witness :
  let w := sample_world (inr (mkResponse 200 body_success)) in
  let raw := mkRaw (Some "   ") (Some "jane@example.com") (Some "555-0100") in
  let result := run (post_register w raw) in
  split "   " = []
  /\ Contact_validate w raw = Some (mkContact "   " "jane@example.com" "555-0100")
  /\ result = (inl IndexError, [])
  /\ posts (snd result) = 0%nat
  /\ is_success (fst result) = false
  /\ is_failure (fst result) = false
  /\ fst result <> inl RequestValidationError
  /\ http_status (fst result) <> 422%Z.
Proof.
  exact (blank_name_raises_IndexError
           (sample_world (inr (mkResponse 200 body_success)))
           "   " "jane@example.com" "jane@example.com" "555-0100"
           eq_refl eq_refl).
Defined.

(** ** The delay and the event loop *)

(** Tasks without an [await] take their turns one after another. *)
Lemma event_loop_finals {A B : Type} (f : B -> M A)
    (jobs : list (nat * B)) :
  forall fuel,
    (length jobs <= fuel)%nat ->
    event_loop fuel (map (fun j => (fst j, Final (f (snd j)))) jobs)
    = flat_map (fun j => map (pair (fst j)) (snd (run (f (snd j))))) jobs.
Proof.
  induction jobs as [|[i b] jobs IH]; intros fuel Hfuel.
  - destruct fuel; reflexivity.
  - destruct fuel as [|fuel]; simpl in Hfuel; [lia|].
    simpl. rewrite app_nil_r. f_equal. apply IH. lia.
Qed.

Lemma combine_seq_map {B C : Type} (g : B -> C) (bs : list B) :
  forall start,
    combine (seq start (length (map g bs))) (map g bs)
    = map (fun j => (fst j, g (snd j))) (combine (seq start (length bs)) bs).
Proof.
  induction bs as [|b bs IH]; intros start; simpl; [reflexivity|].
  now rewrite IH.
Qed.

(** The handlers of the requests in flight run one after another: the
    effects of each, its sleep included, come in one block, in the order
    of arrival. *)
Lemma handlers_run_one_after_another (w : World) (contacts : list Contact) :
  serve (map (register_contact_task w) contacts)
  = flat_map
      (fun j => map (pair (fst j)) (snd (run (register_contact w (snd j)))))
      (combine (seq 0 (length contacts)) contacts).
Proof.
  unfold serve, register_contact_task.
  rewrite (combine_seq_map (fun c => Final (register_contact w c))).
  apply (event_loop_finals (register_contact w)).
  rewrite length_combine, length_seq, Nat.min_id, map_map. simpl.
  induction contacts as [|c cs IH]; simpl; lia.
Qed.

(** A task that awaits gives the turn to the next one: the loop does
    interleave tasks, at their [await]s. *)
Example event_loop_switches_at_await :
  serve [ Await (print "a0") (Final (print "b0"));
          Await (print "a1") (Final (print "b1")) ]
  = [ (0%nat, EvPrint "a0"); (1%nat, EvPrint "a1");
      (0%nat, EvPrint "b0"); (1%nat, EvPrint "b1") ].
Proof. reflexivity. Qed.

(** C9. The delay is to hold up its own request only, by a cooperative
    wait, never by a sleep of the whole thread. The handler breaks this:
    it is an [async def] without any [await], and its delay is
    [time.sleep(2)]. With two requests in flight on the loop, the second
    handler performs its first effect only when the first has posted,
    slept and logged: the thread has then slept 2 seconds, and sleeps 4
    seconds in all. *)
Theorem delay_blocks_event_loop :
  let w := sample_world (inr (mkResponse 200 body_success)) in
  let log := serve [register_contact_task w jane; register_contact_task w mary] in
  log
  = [ (0%nat, EvPost register_url (payload w "Jane" "Doe" jane) headers);
      (0%nat, EvSleep 2);
      (0%nat, EvPrint ("Raw response text: " ++ body_success));
      (1%nat,
       EvPost register_url (payload w "Mary" "Jane Watson" mary) headers);
      (1%nat, EvSleep 2);
      (1%nat, EvPrint ("Raw response text: " ++ body_success)) ]
  /\ slept_before 1 log = 2%Z
  /\ slept (map snd log) = 4%Z.
Proof. vm_compute. repeat split; reflexivity. Qed.

(** * Further properties of the handler *)

(** The whole of a call, in one equation. *)
Lemma register_contact_run (w : World) (contact : Contact) :
  run (register_contact w contact)
  = match split (name contact) with
    | [] => (inl IndexError, [])
    | first :: rest =>
        let data := payload w first (last_name_of (first :: rest)) contact in
        match requests_post w register_url data headers with
        | inl msg =>
            (inl (HTTPException 500 (communication_prefix ++ msg)),
             [ EvPost register_url data headers ])
        | inr r => (mapped w r, effects_of_response data r)
        end
    end.
Proof.
  destruct (split (name contact)) as [|first rest] eqn:Hname.
  - now apply register_contact_no_token.
  - cbv zeta.
    destruct (requests_post w register_url
                (payload w first (last_name_of (first :: rest)) contact)
                headers) as [msg|r] eqn:Hpost.
    + now apply register_contact_transport_failure.
    + now apply register_contact_response.
Qed.

Lemma success_status (body : list (string * json)) :
  py_eq_str (field "status" body) "success" = true ->
  dict_get "status" body = Some (JStr "success").
Proof.
  unfold field.
  destruct (dict_get "status" body) as [[| | |t| |]|]; simpl;
    try discriminate.
  intros E. apply String.eqb_eq in E. now subst t.
Qed.

(** ** A body that does not parse *)

(** X1. HTTP 200 with a body [response.json()] rejects: the handler fails with
    status 500 and a message that embeds the raw body text; the POST, the
    sleep and the log line have all taken place before the parse. *)
Theorem unparseable_body_mapping (w : World) (contact : Contact)
    (first : string) (rest : list string) (r : Response) :
  split (name contact) = first :: rest ->
  requests_post w register_url
    (payload w first (last_name_of (first :: rest)) contact) headers = inr r ->
  status_code r = 200%Z ->
  json_loads w (text r) = None ->
  let result := run (register_contact w contact) in
  fst result
  = inl (HTTPException 500 (invalid_response_prefix ++ text r))
  /\ embeds (text r) (invalid_response_prefix ++ text r)
  /\ printed (snd result) = [ ("Raw response text: " ++ text r)%string ]
  /\ slept (snd result) = 2%Z
  /\ posts (snd result) = 1%nat.
Proof.
  intros Hname Hpost Hcode Hjson result. subst result.
  rewrite (register_contact_response w contact first rest Hname r Hpost).
  unfold mapped. rewrite Hcode, Hjson.
  split; [reflexivity|]. split; [|repeat split; reflexivity].
  exact (embeds_suffix invalid_response_prefix (text r)).
Qed.

Lemma unparseable_body_mapping_witness :
  let w := sample_world (inr (mkResponse 200 "<html>oops</html>")) in
  let result := run (register_contact w jane) in
  fst result
  = inl (HTTPException 500
           "WebinarJam API returned an invalid response: <html>oops</html>")
  /\ embeds "<html>oops</html>"
       "WebinarJam API returned an invalid response: <html>oops</html>"
  /\ printed (snd result) = [ "Raw response text: <html>oops</html>" ]
  /\ slept (snd result) = 2%Z
  /\ posts (snd result) = 1%nat.
Proof.
  exact (unparseable_body_mapping
           (sample_world (inr (mkResponse 200 "<html>oops</html>"))) jane
           "Jane" ["Doe"] (mkResponse 200 "<html>oops</html>")
           eq_refl eq_refl eq_refl eq_refl).
Defined.

(** ** One attempt *)

(** X2. Whatever the remote API does, a call makes at most one POST, and
    exactly one when the name has a token: nothing is retried. It sleeps
    for 2 seconds or not at all, prints one line or none, and does either
    only after the POST. *)
Theorem single_attempt (w : World) (contact : Contact) :
  let log := snd (run (register_contact w contact)) in
  (posts log <= 1)%nat
  /\ (posts log = 1%nat <-> split (name contact) <> [])
  /\ (slept log = 0%Z /\ printed log = []
      \/ slept log = 2%Z /\ length (printed log) = 1%nat /\ posts log = 1%nat).
Proof.
  cbv zeta. rewrite register_contact_run.
  destruct (split (name contact)) as [|first rest].
  - simpl. repeat split; auto; try discriminate. intros H. now elim H.
  - cbv zeta.
    destruct (requests_post w register_url
                (payload w first (last_name_of (first :: rest)) contact)
                headers) as [msg|r]; simpl.
    + repeat split; auto; discriminate.
    + repeat split; auto; discriminate.
Qed.

(** ** What is sent *)

(** X3. A request that validates and whose name has a token: the first effect
    of the call is the POST to the registration URL, with the two fixed
    headers and a form of seven fields, in this order: the three settings,
    the first token of the name, the other tokens joined by single spaces,
    the address as the validation stored it, and the phone as received. *)
Theorem posted_form (w : World) (n e e' p first : string)
    (rest : list string) :
  validate_email w e = Some e' ->
  split n = first :: rest ->
  let log := snd (run (post_register w (mkRaw (Some n) (Some e) (Some p)))) in
  hd_error log
  = Some (EvPost "https://api.webinarjam.com/webinarjam/register"
            [ ("api_key", WEBINARJAM_API_KEY (config w));
              ("webinar_id", WEBINAR_ID (config w));
              ("schedule", WEBINAR_SCHEDULE_ID (config w));
              ("first_name", first);
              ("last_name", join " " rest);
              ("email", e');
              ("phone", p) ]
            headers)
  /\ form_get "Content-Type" headers
     = Some "application/x-www-form-urlencoded".
Proof.
  intros He Hn log. subst log. split; [|reflexivity].
  unfold post_register, Contact_validate. simpl. rewrite He.
  rewrite register_contact_run. simpl name. rewrite Hn. cbv zeta.
  rewrite last_name_of_cons. unfold payload. simpl.
  destruct (requests_post w register_url _ headers); reflexivity.
Qed.

Lemma posted_form_witness :
  let w := sample_world (inl "Read timed out.") in
  let log :=
    snd (run (post_register w
                (mkRaw (Some "  Mary Jane   Watson ")
                   (Some "mary@example.com") (Some "555-0101")))) in
  hd_error log
  = Some (EvPost "https://api.webinarjam.com/webinarjam/register"
            [ ("api_key", "key");
              ("webinar_id", "7");
              ("schedule", "3");
              ("first_name", "Mary");
              ("last_name", "Jane Watson");
              ("email", "mary@example.com");
              ("phone", "555-0101") ]
            headers)
  /\ form_get "Content-Type" headers
     = Some "application/x-www-form-urlencoded".
Proof.
  exact (posted_form (sample_world (inl "Read timed out."))
           "  Mary Jane   Watson " "mary@example.com" "mary@example.com"
           "555-0101" "Mary" ["Jane"; "Watson"] eq_refl eq_refl).
Defined.

(** ** Exceptions that escape *)

(** X4. [AttributeError] escapes the handler exactly when the remote API
    answers 200 with a body that parses to something other than an object,
    or to an object whose [status] is "success" and whose [user] is present
    and not an object. *)
Theorem attribute_error_iff (w : World) (contact : Contact) :
  fst (run (register_contact w contact)) = inl AttributeError
  <-> exists first rest r j,
        split (name contact) = first :: rest
        /\ requests_post w register_url
             (payload w first (last_name_of (first :: rest)) contact) headers
           = inr r
        /\ status_code r = 200%Z
        /\ json_loads w (text r) = Some j
        /\ unexpected_shape j = true.
Proof.
  rewrite register_contact_run. split.
  - destruct (split (name contact)) as [|first rest]; [discriminate|].
    cbv zeta.
    destruct (requests_post w register_url
                (payload w first (last_name_of (first :: rest)) contact)
                headers) as [msg|r] eqn:Hpost; [discriminate|].
    unfold mapped. simpl fst.
    destruct (status_code r =? 200)%Z eqn:Hcode; [|discriminate].
    apply Z.eqb_eq in Hcode.
    destruct (json_loads w (text r)) as [j|] eqn:Hjson; [|discriminate].
    intros H. exists first, rest, r, j. repeat split; auto.
    destruct j as [| | | | |body]; try reflexivity. simpl.
    destruct (py_eq_str (field "status" body) "success"); [|discriminate].
    destruct (nested_user body); [discriminate | reflexivity].
  - intros (first & rest & r & j & Hname & Hpost & Hcode & Hjson & Hshape).
    rewrite Hname. cbv zeta. rewrite Hpost. unfold mapped. simpl fst.
    rewrite Hcode, Hjson. simpl.
    destruct j as [| | | | |body]; try reflexivity. simpl in Hshape.
    apply andb_prop in Hshape as [Hs Hu]. rewrite Hs.
    destruct (nested_user body); [discriminate | reflexivity].
Qed.

(** X5. [IndexError] escapes exactly when the name has no token, that is,
    when it is made of whitespace only. A [RequestException] never leaves
    the handler: the [except] clause turns each into a failure of status
    500. *)
Theorem index_error_iff (w : World) (contact : Contact) :
  (fst (run (register_contact w contact)) = inl IndexError
   <-> all_space (name contact) = true)
  /\ forall msg,
       fst (run (register_contact w contact)) <> inl (RequestException msg).
Proof.
  rewrite <- split_nil_iff, register_contact_run.
  destruct (split (name contact)) as [|first rest].
  - simpl. repeat split; auto; try (intros; discriminate).
  - cbv zeta.
    destruct (requests_post w register_url
                (payload w first (last_name_of (first :: rest)) contact)
                headers) as [msg|r]; simpl fst.
    + repeat split; try (intros; discriminate).
    + unfold mapped.
      destruct (status_code r =? 200)%Z;
        [|repeat split; try (intros; discriminate)].
      destruct (json_loads w (text r)) as [[| | | | |body]|];
        try (repeat split; try (intros; discriminate); fail).
      destruct (py_eq_str (field "status" body) "success");
        [|repeat split; try (intros; discriminate)].
      destruct (nested_user body);
        repeat split; try (intros; discriminate).
Qed.

(** ** The status of a failure *)

(** X6. An [HTTPException] raised by the handler never carries the status
    200: its status is 500, 400, or the status of a response of the remote
    API that is not 200. *)
Theorem failure_status_not_ok (w : World) (contact : Contact)
    (code : Z) (detail : string) :
  fst (run (register_contact w contact)) = inl (HTTPException code detail) ->
  code <> 200%Z
  /\ (code = 500%Z \/ code = 400%Z
      \/ exists first rest r,
           split (name contact) = first :: rest
           /\ requests_post w register_url
                (payload w first (last_name_of (first :: rest)) contact)
                headers
              = inr r
           /\ status_code r = code).
Proof.
  rewrite register_contact_run.
  destruct (split (name contact)) as [|first rest] eqn:Hname;
    [discriminate|].
  cbv zeta.
  destruct (requests_post w register_url
              (payload w first (last_name_of (first :: rest)) contact)
              headers) as [msg|r] eqn:Hpost; simpl fst.
  - intros H. injection H as <- _. split; [discriminate | auto].
  - unfold mapped.
    destruct (status_code r =? 200)%Z eqn:Hcode.
    + destruct (json_loads w (text r)) as [[| | | | |body]|];
        try discriminate;
        try (intros H; injection H as <- _; split; [discriminate | auto]).
      destruct (py_eq_str (field "status" body) "success").
      * destruct (nested_user body); discriminate.
      * intros H. injection H as <- _. split; [discriminate | auto].
    + apply Z.eqb_neq in Hcode.
      intros H. injection H as <- _. split; [exact Hcode|].
      right; right. exists first, rest, r. auto.
Qed.

Lemma failure_status_not_ok_witness :
  503%Z <> 200%Z
  /\ (503%Z = 500%Z \/ 503%Z = 400%Z
      \/ exists first rest r,
           split (name jane) = first :: rest
           /\ requests_post
                (sample_world (inr (mkResponse 503 "Service Unavailable")))
                register_url
                (payload
                   (sample_world (inr (mkResponse 503 "Service Unavailable")))
                   first (last_name_of (first :: rest)) jane)
                headers
              = inr r
           /\ status_code r = 503%Z).
Proof.
  exact (failure_status_not_ok
           (sample_world (inr (mkResponse 503 "Service Unavailable"))) jane
           503 (responded_with_prefix ++ "Service Unavailable") eq_refl).
Defined.

(** ** Success is only reported on the remote API's word *)

(** X7. A call that ends in a success record has posted once, received HTTP
    200 and a body that parses to an object whose [status] is "success";
    the record carries the fixed message and the four values of the nested
    [user] object, [None] for each the object lacks. *)
Theorem success_only_on_remote_success (w : World) (contact : Contact)
    (record : Registered) :
  fst (run (register_contact w contact)) = inr record ->
  exists first rest r body user,
    split (name contact) = first :: rest
    /\ requests_post w register_url
         (payload w first (last_name_of (first :: rest)) contact) headers
       = inr r
    /\ status_code r = 200%Z
    /\ json_loads w (text r) = Some (JDict body)
    /\ dict_get "status" body = Some (JStr "success")
    /\ nested_user body = Some user
    /\ record
       = mkRegistered registered_message
           (field "user_id" user) (field "live_room_url" user)
           (field "replay_room_url" user) (field "thank_you_url" user)
    /\ posts (snd (run (register_contact w contact))) = 1%nat.
Proof.
  rewrite register_contact_run.
  destruct (split (name contact)) as [|first rest]; [discriminate|].
  cbv zeta.
  destruct (requests_post w register_url
              (payload w first (last_name_of (first :: rest)) contact)
              headers) as [msg|r] eqn:Hpost; [discriminate|].
  unfold mapped. simpl fst. simpl snd.
  destruct (status_code r =? 200)%Z eqn:Hcode; [|discriminate].
  apply Z.eqb_eq in Hcode.
  destruct (json_loads w (text r)) as [[| | | | |body]|] eqn:Hjson;
    try discriminate.
  destruct (py_eq_str (field "status" body) "success") eqn:Hstatus;
    [|discriminate].
  apply success_status in Hstatus.
  destruct (nested_user body) as [user|] eqn:Huser; [|discriminate].
  intros H. injection H as <-.
  exists first, rest, r, body, user. repeat split; auto.
Qed.

Lemma success_only_on_remote_success_witness :
  let w := sample_world (inr (mkResponse 200 body_success)) in
  exists first rest r body user,
    split (name jane) = first :: rest
    /\ requests_post w register_url
         (payload w first (last_name_of (first :: rest)) jane) headers
       = inr r
    /\ status_code r = 200%Z
    /\ json_loads w (text r) = Some (JDict body)
    /\ dict_get "status" body = Some (JStr "success")
    /\ nested_user body = Some user
    /\ mkRegistered registered_message (JStr "u1") (JStr "http://x")
         (JStr "http://y") (JStr "http://z")
       = mkRegistered registered_message
           (field "user_id" user) (field "live_room_url" user)
           (field "replay_room_url" user) (field "thank_you_url" user)
    /\ posts (snd (run (register_contact w jane))) = 1%nat.
Proof.
  exact (success_only_on_remote_success
           (sample_world (inr (mkResponse 200 body_success))) jane
           (mkRegistered registered_message (JStr "u1") (JStr "http://x")
              (JStr "http://y") (JStr "http://z"))
           eq_refl).
Defined.

(** ** The two names sent carry the tokens of the name *)

(** X8. Whatever first and last name a call sends, the first is one token, the
    last is its own tokens joined by single spaces (no leading, trailing or
    repeated whitespace), and the two, put together with a space, split
    into the tokens of the name: no token is lost, added or reordered. *)
Theorem sent_names_keep_tokens (w : World) (contact : Contact)
    (first_name last_name : string) :
  sent_names (snd (run (register_contact w contact)))
  = [(Some first_name, Some last_name)] ->
  is_token first_name = true
  /\ last_name = join " " (split last_name)
  /\ first_name :: split last_name = split (name contact)
  /\ split (first_name ++ " " ++ last_name)%string = split (name contact).
Proof.
  intros Hsent.
  pose proof (split_tokens (name contact)) as Htok.
  destruct (split (name contact)) as [|first rest] eqn:Hname.
  - rewrite (register_contact_no_token w contact Hname) in Hsent.
    discriminate.
  - rewrite (register_contact_log w contact first rest Hname) in Hsent.
    assert (Hfl : first_name = first /\ last_name = join " " rest).
    { destruct (requests_post w register_url
                  (payload w first (last_name_of (first :: rest)) contact)
                  headers);
        unfold sent_names in Hsent; simpl in Hsent;
        rewrite last_name_of_cons in Hsent;
        injection Hsent as <- <-; auto. }
    destruct Hfl as [-> ->].
    inversion Htok as [|? ? Hfirst Hrest]; subst.
    rewrite (split_join rest Hrest).
    repeat split; auto.
    change (first ++ " " ++ join " " rest)%string
      with (first ++ String " "%char (join " " rest))%string.
    rewrite split_app_space by reflexivity.
    now rewrite (split_token first Hfirst), (split_join rest Hrest).
Qed.

Lemma sent_names_keep_tokens_witness :
  is_token "Mary" = true
  /\ "Jane Watson" = join " " (split "Jane Watson")
  /\ "Mary" :: split "Jane Watson" = split "  Mary Jane   Watson "
  /\ split ("Mary" ++ " " ++ "Jane Watson")%string
     = split "  Mary Jane   Watson ".
Proof.
  exact (sent_names_keep_tokens (sample_world (inl "Read timed out."))
           (mkContact "  Mary Jane   Watson " "mary@example.com" "555-0101")
           "Mary" "Jane Watson" eq_refl).
Defined.

(** * Start-up *)

Lemma truthy_setting (v : option string) :
  truthy v = true -> v = Some (setting v) /\ setting v <> EmptyString.
Proof.
  destruct v as [[|c s]|]; simpl; try discriminate.
  intros _. split; [reflexivity | discriminate].
Qed.

(** A start-up that succeeds has read three non-empty texts. *)
Lemma startup_settings_read (load_dotenv : environ -> environ)
    (env : environ) (c : Config) :
  startup load_dotenv env = inr c ->
  let env' := effective_environ load_dotenv env in
  getenv env' "WEBINARJAM_API_KEY" = Some (WEBINARJAM_API_KEY c)
  /\ getenv env' "WEBINARJAM_WEBINAR_ID" = Some (WEBINAR_ID c)
  /\ getenv env' "WEBINARJAM_WEBINAR_SCHEDULE_ID"
     = Some (WEBINAR_SCHEDULE_ID c)
  /\ WEBINARJAM_API_KEY c <> EmptyString
  /\ WEBINAR_ID c <> EmptyString
  /\ WEBINAR_SCHEDULE_ID c <> EmptyString.
Proof.
  unfold startup, all. cbv zeta.
  set (env' := effective_environ load_dotenv env). cbn [forallb].
  destruct (truthy (getenv env' "WEBINARJAM_API_KEY")) eqn:H1;
    [|discriminate].
  destruct (truthy (getenv env' "WEBINARJAM_WEBINAR_ID")) eqn:H2;
    [|discriminate].
  destruct (truthy (getenv env' "WEBINARJAM_WEBINAR_SCHEDULE_ID")) eqn:H3;
    [|discriminate].
  simpl. intros H. injection H as <-.
  apply truthy_setting in H1 as [E1 N1].
  apply truthy_setting in H2 as [E2 N2].
  apply truthy_setting in H3 as [E3 N3].
  simpl. repeat split; assumption.
Qed.

(** X9. The settings are read from the process environment when [RENDER] is
    set, to any text, the empty one included, and from what [load_dotenv]
    leaves otherwise. The import succeeds exactly when the three variables
    are set to non-empty texts there, and the settings are then these
    texts; otherwise it raises the [RuntimeError], also for a variable set
    to the empty text. *)
Theorem startup_checks_settings (load_dotenv : environ -> environ)
    (env : environ) :
  let env' :=
    match getenv env "RENDER" with
    | None => load_dotenv env
    | Some _ => env
    end in
  match startup load_dotenv env with
  | inr c =>
      getenv env' "WEBINARJAM_API_KEY" = Some (WEBINARJAM_API_KEY c)
      /\ getenv env' "WEBINARJAM_WEBINAR_ID" = Some (WEBINAR_ID c)
      /\ getenv env' "WEBINARJAM_WEBINAR_SCHEDULE_ID"
         = Some (WEBINAR_SCHEDULE_ID c)
      /\ WEBINARJAM_API_KEY c <> EmptyString
      /\ WEBINAR_ID c <> EmptyString
      /\ WEBINAR_SCHEDULE_ID c <> EmptyString
  | inl e =>
      e = RuntimeError missing_variables_message
      /\ exists k,
           In k required_variables
           /\ (getenv env' k = None \/ getenv env' k = Some EmptyString)
  end.
Proof.
  cbv zeta.
  change (match getenv env "RENDER" with
          | None => load_dotenv env
          | Some _ => env
          end) with (effective_environ load_dotenv env).
  destruct (startup load_dotenv env) as [e|c] eqn:Hstart.
  - revert Hstart. unfold startup, all. cbv zeta.
    set (env' := effective_environ load_dotenv env). cbn [forallb].
    assert (Hfalse : forall k, truthy (getenv env' k) = false ->
              getenv env' k = None \/ getenv env' k = Some EmptyString).
    { intros k. destruct (getenv env' k) as [[|ch s]|]; simpl; auto.
      discriminate. }
    destruct (truthy (getenv env' "WEBINARJAM_API_KEY")) eqn:H1.
    2:{ simpl. intros H. injection H as <-. split; [reflexivity|].
        exists "WEBINARJAM_API_KEY".
        split; [simpl; auto | now apply Hfalse]. }
    destruct (truthy (getenv env' "WEBINARJAM_WEBINAR_ID")) eqn:H2.
    2:{ simpl. intros H. injection H as <-. split; [reflexivity|].
        exists "WEBINARJAM_WEBINAR_ID".
        split; [simpl; auto | now apply Hfalse]. }
    destruct (truthy (getenv env' "WEBINARJAM_WEBINAR_SCHEDULE_ID")) eqn:H3.
    2:{ simpl. intros H. injection H as <-. split; [reflexivity|].
        exists "WEBINARJAM_WEBINAR_SCHEDULE_ID".
        split; [simpl; auto | now apply Hfalse]. }
    simpl. discriminate.
  - exact (startup_settings_read load_dotenv env c Hstart).
Qed.

(** X10. The settings posted are those of the environment at start-up: when the
    module started with the settings of [w], each call whose name has a
    token posts, as [api_key], [webinar_id] and [schedule], the non-empty
    texts of the three variables. *)
Theorem started_settings_posted (load_dotenv : environ -> environ)
    (env : environ) (w : World) (contact : Contact)
    (first : string) (rest : list string) :
  startup load_dotenv env = inr (config w) ->
  split (name contact) = first :: rest ->
  let env' := effective_environ load_dotenv env in
  exists data,
    posted (snd (run (register_contact w contact))) = [data]
    /\ form_get "api_key" data = getenv env' "WEBINARJAM_API_KEY"
    /\ form_get "webinar_id" data = getenv env' "WEBINARJAM_WEBINAR_ID"
    /\ form_get "schedule" data = getenv env' "WEBINARJAM_WEBINAR_SCHEDULE_ID"
    /\ truthy (form_get "api_key" data) = true
    /\ truthy (form_get "webinar_id" data) = true
    /\ truthy (form_get "schedule" data) = true.
Proof.
  intros Hstart Hname env'.
  destruct (startup_settings_read load_dotenv env (config w) Hstart)
    as (E1 & E2 & E3 & N1 & N2 & N3).
  fold env' in E1, E2, E3.
  exists (payload w first (last_name_of (first :: rest)) contact).
  split.
  - rewrite (register_contact_log w contact first rest Hname).
    destruct (requests_post w register_url _ headers); reflexivity.
  - rewrite E1, E2, E3. unfold payload. simpl.
    repeat split; auto.
    + destruct (WEBINARJAM_API_KEY (config w)); [now elim N1 | reflexivity].
    + destruct (WEBINAR_ID (config w)); [now elim N2 | reflexivity].
    + destruct (WEBINAR_SCHEDULE_ID (config w));
        [now elim N3 | reflexivity].
Qed.

Lemma started_settings_posted_witness :
  let w := sample_world (inl "Read timed out.") in
  exists data,
    posted (snd (run (register_contact w jane))) = [data]
    /\ form_get "api_key" data = Some "key"
    /\ form_get "webinar_id" data = Some "7"
    /\ form_get "schedule" data = Some "3"
    /\ truthy (form_get "api_key" data) = true
    /\ truthy (form_get "webinar_id" data) = true
    /\ truthy (form_get "schedule" data) = true.
Proof.
  exact (started_settings_posted sample_load_dotenv []
           (sample_world (inl "Read timed out.")) jane "Jane" ["Doe"]
           eq_refl eq_refl).
Defined.
